(** * PostBrowser: pagination, windowing and fetch logic of [src/App.tsx]

    A shallow embedding of the [App] component.  The React state
    ([useState] cells) is a record, the values derived at every render
    ([postsPerPage], [totalPages], [startIndex], [currentPosts]) are
    functions of that record, the event handlers are state transformers,
    and the asynchronous [fetchPosts] body is a computation in a small
    state-and-exception monad whose [try]/[catch]/[finally] follow the
    source.  JavaScript numbers are integers throughout this component
    (lengths, page numbers, pixel widths) and are modelled by [Z]; the two
    divisions whose results are not integers are taken in [Q] before
    [Math.ceil] / [Math.floor] round them. *)

From Stdlib Require Import ZArith List String Ascii Bool Lia QArith Qround.
From Equations Require Import Equations.
Import ListNotations.

Local Open Scope Z_scope.

(** ** The JavaScript primitives used by the component *)

Module Js.

(** [a / b] on numbers. *)
Definition div (a b : Z) : Q := (inject_Z a / inject_Z b)%Q.

Definition ceil (x : Q) : Z := Qceiling x.
Definition floor (x : Q) : Z := Qfloor x.
Definition max (a b : Z) : Z := Z.max a b.
Definition min (a b : Z) : Z := Z.min a b.

(** [a % b]: the remainder takes the sign of the dividend. *)
Definition rem (a b : Z) : Z := Z.rem a b.

(** [arr.length]. *)
Definition length {A} (arr : list A) : Z := Z.of_nat (List.length arr).

(** [Array.prototype.slice(start, end)]: a negative index counts from the
    end of the array, both indices are clamped to [0, length], and an
    empty array results when [end] does not exceed [start]. *)
Definition relative (len i : Z) : Z :=
  if i <? 0 then Z.max (len + i) 0 else Z.min i len.

Definition slice {A} (arr : list A) (start end_ : Z) : list A :=
  let len := length arr in
  let k := relative len start in
  let final := relative len end_ in
  firstn (Z.to_nat (Z.max (final - k) 0)) (skipn (Z.to_nat k) arr).

(** [arr[i]]: [None] stands for [undefined]. *)
Definition index {A} (arr : list A) (i : Z) : option A :=
  if i <? 0 then None else nth_error arr (Z.to_nat i).

(** [str.length] and [String.prototype.substring(start, end)]: both
    indices are clamped to [0, length] and swapped when out of order. *)
Definition strlen (str : string) : Z := Z.of_nat (String.length str).

Definition clamp (len i : Z) : Z := Z.min (Z.max i 0) len.

Definition substring (str : string) (start end_ : Z) : string :=
  let len := strlen str in
  let finalStart := clamp len start in
  let finalEnd := clamp len end_ in
  let from := Z.min finalStart finalEnd in
  let to := Z.max finalStart finalEnd in
  String.substring (Z.to_nat from) (Z.to_nat (to - from)) str.

(** A thrown value, as [catch (err)] sees it: [err instanceof Error]
    holds for [ErrorObject] only, and then [err.message] is its field. *)
Inductive Thrown : Type :=
| ErrorObject (message : string)
| OtherValue.

End Js.

(** ** Data model *)

Record Post : Type := mkPost {
  id : Z;
  title : string;
  body : string;
  userId : Z
}.

(** The five [useState] cells of [App]. *)
Record BrowserState : Type := mkState {
  posts : list Post;
  loading : bool;
  error : option string;
  currentPage : Z;
  isMobile : bool
}.

(** The initial values passed to [useState]. *)
Definition initialState : BrowserState :=
  {| posts := []; loading := true; error := None;
     currentPage := 1; isMobile := false |}.

Definition setPosts (v : list Post) (s : BrowserState) : BrowserState :=
  {| posts := v; loading := loading s; error := error s;
     currentPage := currentPage s; isMobile := isMobile s |}.

Definition setLoading (v : bool) (s : BrowserState) : BrowserState :=
  {| posts := posts s; loading := v; error := error s;
     currentPage := currentPage s; isMobile := isMobile s |}.

Definition setError (v : option string) (s : BrowserState) : BrowserState :=
  {| posts := posts s; loading := loading s; error := v;
     currentPage := currentPage s; isMobile := isMobile s |}.

Definition setCurrentPage (v : Z) (s : BrowserState) : BrowserState :=
  {| posts := posts s; loading := loading s; error := error s;
     currentPage := v; isMobile := isMobile s |}.

Definition setIsMobile (v : bool) (s : BrowserState) : BrowserState :=
  {| posts := posts s; loading := loading s; error := error s;
     currentPage := currentPage s; isMobile := v |}.

(** ** Responsive breakpoint detection *)

(** [checkMobile], run on mount and on every [resize] event, with the
    value of [window.innerWidth] at that moment. *)
Definition checkMobile (innerWidth : Z) (s : BrowserState) : BrowserState :=
  setIsMobile (innerWidth <=? 768) s.

(** ** Pagination logic *)

(** The page arithmetic of the render body, for an arbitrary page size and
    page number; the component instantiates it below. *)
Section Pagination.

Variable posts_ : list Post.
Variable postsPerPage_ : Z.
Variable page : Z.

Definition pageCount : Z :=
  Js.ceil (Js.div (Js.length posts_) postsPerPage_).

Definition pageStart : Z := (page - 1) * postsPerPage_.

Definition pageSlice : list Post :=
  Js.slice posts_ pageStart (pageStart + postsPerPage_).

End Pagination.

Definition postsPerPage (s : BrowserState) : Z :=
  if isMobile s then 4 else 8.

Definition totalPages (s : BrowserState) : Z :=
  pageCount (posts s) (postsPerPage s).

Definition startIndex (s : BrowserState) : Z :=
  pageStart (postsPerPage s) (currentPage s).

Definition currentPosts (s : BrowserState) : list Post :=
  pageSlice (posts s) (postsPerPage s) (currentPage s).

(** The one observable side effect of a handler. *)
Inductive Effect : Type :=
| ScrollToTopSmooth.

Definition handlePageChange (page : Z) (s : BrowserState)
  : BrowserState * list Effect :=
  if (1 <=? page) && (page <=? totalPages s)
  then (setCurrentPage page s, [ScrollToTopSmooth])
  else (s, []).

(** ** Page numbers for the pagination bar *)

(** The loop [for (let i = startPage; i <= endPage; i++) pages.push(i)]. *)
Equations? pushPages (i endPage : Z) (pages : list Z) : list Z
  by wf (Z.to_nat (endPage + 1 - i)) lt :=
  pushPages i endPage pages with Z_le_gt_dec i endPage => {
    | left _ := pushPages (i + 1) endPage (pages ++ [i]);
    | right _ := pages }.
Proof. lia. Qed.

Definition maxVisiblePages (s : BrowserState) : Z :=
  if isMobile s then 3 else 5.

Definition getPageNumbers (s : BrowserState) : list Z :=
  let pages := [] in
  let maxVisiblePages := maxVisiblePages s in
  let startPage :=
    Js.max 1 (currentPage s - Js.floor (Js.div maxVisiblePages 2)) in
  let endPage := Js.min (totalPages s) (startPage + maxVisiblePages - 1) in
  let startPage :=
    if endPage - startPage + 1 <? maxVisiblePages
    then Js.max 1 (endPage - maxVisiblePages + 1)
    else startPage in
  pushPages startPage endPage pages.

(** ** Excerpts and card colours *)

(** [truncateText(text, maxLength = 120)]. *)
Definition defaultMaxLength : Z := 120.

Definition truncateText (text : string) (maxLength : Z) : string :=
  if Js.strlen text >? maxLength
  then (Js.substring text 0 maxLength ++ "...")%string
  else text.

(** The call [truncateText(post.body)] of the card grid. *)
Definition excerpt (post : Post) : string :=
  truncateText (body post) defaultMaxLength.

Definition colors : list string :=
  [ "post-orange"; "post-teal"; "post-cyan";
    "post-red"; "post-purple"; "post-brown" ]%string.

Definition getPostColorClass (index : Z) : option string :=
  Js.index colors (Js.rem index (Js.length colors)).

(** ** Fetching the posts *)

(** What the network hands back.  [fetch] either rejects with a thrown
    value or resolves to a response; [response.json()] either rejects or
    resolves to the decoded array of posts. *)
Record Response : Type := mkResponse {
  ok : bool;
  json : Js.Thrown + list Post
}.

Definition FetchResult : Type := (Js.Thrown + Response)%type.

(** Computations over the component state that may throw. *)
Definition Task (A : Type) : Type :=
  BrowserState -> (Js.Thrown + A) * BrowserState.

Definition ret {A} (a : A) : Task A := fun s => (inr a, s).

Definition throw {A} (e : Js.Thrown) : Task A := fun s => (inl e, s).

Definition bind {A B} (m : Task A) (k : A -> Task B) : Task B :=
  fun s =>
    match m s with
    | (inl e, s1) => (inl e, s1)
    | (inr a, s1) => k a s1
    end.

(** [await p] for a promise that has settled with [p]. *)
Definition await {A} (p : Js.Thrown + A) : Task A := fun s => (p, s).

(** A call of one of the [useState] setters. *)
Definition call (setter : BrowserState -> BrowserState) : Task unit :=
  fun s => (inr tt, setter s).

(** [try { body } catch (err) { handler err } finally { final }]. *)
Definition tryCatchFinally
    (body : Task unit) (handler : Js.Thrown -> Task unit) (final : Task unit)
  : Task unit :=
  fun s =>
    let '(r, s1) :=
      match body s with
      | (inl err, s1) => handler err s1
      | (inr tt, s1) => (inr tt, s1)
      end in
    match final s1 with
    | (inl e, s2) => (inl e, s2)
    | (inr tt, s2) => (r, s2)
    end.

Declare Scope task_scope.
Delimit Scope task_scope with task.
Notation "x <- m ;; k" := (bind m (fun x => k))
  (at level 61, m at next level, right associativity) : task_scope.
Notation "m ;; k" := (bind m (fun _ => k))
  (at level 61, right associativity) : task_scope.

Definition failedToFetch : string := "Failed to fetch posts".
Definition anErrorOccurred : string := "An error occurred".

Definition fetchPosts (net : FetchResult) : Task unit :=
  tryCatchFinally
    (call (setLoading true) ;;
     response <- await net ;;
     (if negb (ok response)
      then throw (Js.ErrorObject failedToFetch)
      else ret tt) ;;
     data <- await (json response) ;;
     call (setPosts (Js.slice data 0 100)))%task
    (fun err =>
       call (setError (Some match err with
                            | Js.ErrorObject message => message
                            | Js.OtherValue => anErrorOccurred
                            end)))
    (call (setLoading false)).

(** The state once the fetch effect has run to its end. *)
Definition fetchSettled (net : FetchResult) (s : BrowserState) : BrowserState :=
  snd (fetchPosts net s).

(** ** Reachable states *)

(** The component starts from [initialState].  Afterwards the resize
    listener may fire at any time, a pagination button may call
    [handlePageChange], and the single fetch, in flight exactly while
    [loading] is still [true], settles once. *)
Inductive reachable : BrowserState -> Prop :=
| reach_mount : reachable initialState
| reach_resize s innerWidth :
    reachable s -> reachable (checkMobile innerWidth s)
| reach_fetch s net :
    reachable s -> loading s = true -> reachable (fetchSettled net s)
| reach_page s page :
    reachable s -> reachable (fst (handlePageChange page s)).

(** ** Rendering *)

(** What the component returns, reduced to its data: the wrapper [div]s
    are constant, and the [style] attribute of a card (a floating-point
    product printed into a string) is left out. *)

(** Truthiness of [error] in [if (error)] and [!error]: [null] and the
    empty string are falsy. *)
Definition truthy (v : option string) : bool :=
  match v with
  | Some (String _ _) => true
  | _ => false
  end.

(** A string-or-null as a text child, and a string-or-undefined inside a
    template literal. *)
Definition textOf (v : option string) : string :=
  match v with
  | Some str => str
  | None => EmptyString
  end.

Definition interpolate (v : option string) : string :=
  match v with
  | Some str => str
  | None => "undefined"
  end.

(** [arr.map((x, index) => f x index)]. *)
Fixpoint mapFrom {A B} (f : A -> Z -> B) (index : Z) (arr : list A) : list B :=
  match arr with
  | [] => []
  | x :: rest => f x index :: mapFrom f (index + 1) rest
  end.

Definition mapi {A B} (f : A -> Z -> B) (arr : list A) : list B :=
  mapFrom f 0 arr.

Record Card : Type := mkCard {
  key : Z;
  cardClass : string;
  cardTitle : string;
  description : string
}.

Definition renderCard (post : Post) (index : Z) : Card :=
  {| key := id post;
     cardClass :=
       ("post-card " ++ interpolate (getPostColorClass index) ++ " fade-in")
         %string;
     cardTitle := title post;
     description := excerpt post |}.

Inductive Label : Type :=
| Caption (text : string)
| PageNumber (page : Z).

(** A pagination button; [target] is the argument its [onClick] passes to
    [handlePageChange]. *)
Record Button : Type := mkButton {
  buttonClass : string;
  target : Z;
  disabled : bool;
  label : Label
}.

Record Pagination : Type := mkPagination {
  previous : Button;
  numbers : list Button;
  next : Button
}.

Definition renderPageButton (s : BrowserState) (page : Z) : Button :=
  {| buttonClass :=
       ("pagination-btn "
          ++ (if (currentPage s =? page)%Z then "active" else ""))%string;
     target := page;
     disabled := false;
     label := PageNumber page |}.

Definition renderPagination (s : BrowserState) : Pagination :=
  {| previous :=
       {| buttonClass := "pagination-btn prev-next";
          target := currentPage s - 1;
          disabled := currentPage s =? 1;
          label := Caption "Previous" |};
     numbers := map (renderPageButton s) (getPageNumbers s);
     next :=
       {| buttonClass := "pagination-btn prev-next";
          target := currentPage s + 1;
          disabled := currentPage s =? totalPages s;
          label := Caption "Next" |} |}.

Inductive View : Type :=
| LoadingView
| ErrorView (message : string)
| PostsView (gridClass : string) (cards : list Card)
            (pagination : option Pagination).

Definition render (s : BrowserState) : View :=
  if loading s then LoadingView
  else if truthy (error s) then ErrorView (textOf (error s))
  else
    PostsView
      ("posts-grid " ++ (if isMobile s then "mobile" else "desktop"))%string
      (mapi renderCard (currentPosts s))
      (if negb (truthy (error s)) && (totalPages s >? 1)
       then Some (renderPagination s)
       else None).

(** A click: a disabled button does not run its handler. *)
Definition click (b : Button) (s : BrowserState)
  : BrowserState * list Effect :=
  if disabled b then (s, []) else handlePageChange (target b) s.

(** ** Specification-side notions *)

(** [interval a b] is [a; a+1; ...; b], empty when [b < a]. *)
Definition interval (a b : Z) : list Z :=
  map (fun k => a + Z.of_nat k) (seq 0 (Z.to_nat (b + 1 - a))).

(** A list in which every element is followed by its successor. *)
Definition ascending_run (l : list Z) : Prop :=
  forall k a b,
    nth_error l k = Some a -> nth_error l (S k) = Some b -> b = a + 1.

(** The window as the specification words it: centre on the current page,
    cut at the last page, then slide left if the cut made it short. *)
Definition visiblePageNumbers
    (maxVisiblePageButtons totalPages_ currentPage_ : Z) : list Z :=
  let start := Z.max 1 (currentPage_ - maxVisiblePageButtons / 2) in
  let end_ := Z.min totalPages_ (start + maxVisiblePageButtons - 1) in
  let start :=
    if end_ - start + 1 <? maxVisiblePageButtons
    then Z.max 1 (end_ - maxVisiblePageButtons + 1)
    else start in
  interval start end_.

(** The interval invariant of the data model. *)
Definition page_in_range (s : BrowserState) : Prop :=
  1 <= totalPages s -> 1 <= currentPage s <= totalPages s.

(** ** Sample data *)

(** [n] distinct posts, numbered from 1, as a response body would list them. *)
Definition samplePosts (n : nat) : list Post :=
  map (fun k => mkPost (Z.of_nat k) "title" "body" 1) (seq 1 n).

Definition okResponse (data : list Post) : FetchResult :=
  inr (mkResponse true (inr data)).

(** A phone in portrait loads 13 posts (4 pages of 4) and the reader
    presses Next three times, up to the last page. *)
Definition lastNarrowPageState : BrowserState :=
  fst (handlePageChange 4
    (fst (handlePageChange 3
      (fst (handlePageChange 2
        (fetchSettled (okResponse (samplePosts 13))
          (checkMobile 375 initialState))))))).

(** Then the phone is turned to landscape (2 pages of 8). *)
Definition stalePageState : BrowserState :=
  checkMobile 1024 lastNarrowPageState.

(** * Lemmas *)

Ltac fetch_cases net :=
  destruct net as [[?message|] | [[|] [[?message|] | ?data]]].

(** ** Arithmetic of the rounding primitives *)

Lemma ceil_div_opp (n d : Z) :
  0 < d -> Js.ceil (Js.div n d) = - (- n / d).
Proof.
  intros Hd. destruct d as [|p|p]; try lia.
  unfold Js.ceil, Js.div, Qceiling, Qfloor, Qdiv, Qinv, Qmult, Qopp, inject_Z.
  cbn [Qnum Qden]. rewrite Z.mul_1_r, Pos.mul_1_l. reflexivity.
Qed.

Lemma floor_div (n d : Z) :
  0 < d -> Js.floor (Js.div n d) = n / d.
Proof.
  intros Hd. destruct d as [|p|p]; try lia.
  unfold Js.floor, Js.div, Qfloor, Qdiv, Qinv, Qmult, inject_Z.
  cbn [Qnum Qden]. rewrite Z.mul_1_r, Pos.mul_1_l. reflexivity.
Qed.

(** [Math.ceil(n / d)] is the least [t] with [n <= t * d]. *)
Lemma ceil_div_bounds (n d : Z) :
  0 < d ->
  (Js.ceil (Js.div n d) - 1) * d < n <= Js.ceil (Js.div n d) * d.
Proof.
  intros Hd. rewrite ceil_div_opp by assumption.
  pose proof (Z.div_mod (- n) d ltac:(lia)) as E.
  pose proof (Z.mod_pos_bound (- n) d Hd) as B.
  nia.
Qed.

Lemma ceil_div_unique (n d t : Z) :
  0 < d -> (t - 1) * d < n <= t * d -> Js.ceil (Js.div n d) = t.
Proof.
  intros Hd Ht. pose proof (ceil_div_bounds n d Hd). nia.
Qed.

Lemma ceil_div_nonneg (n d : Z) :
  0 < d -> 0 <= n -> 0 <= Js.ceil (Js.div n d).
Proof.
  intros Hd Hn. pose proof (ceil_div_bounds n d Hd). nia.
Qed.

Lemma length_nonneg {A} (l : list A) : 0 <= Js.length l.
Proof. unfold Js.length. lia. Qed.

Lemma postsPerPage_pos s : 0 < postsPerPage s.
Proof. unfold postsPerPage. destruct (isMobile s); lia. Qed.

Lemma totalPages_bounds s :
  (totalPages s - 1) * postsPerPage s < Js.length (posts s)
    <= totalPages s * postsPerPage s.
Proof. apply ceil_div_bounds, postsPerPage_pos. Qed.

Lemma totalPages_nonneg s : 0 <= totalPages s.
Proof.
  apply ceil_div_nonneg; [apply postsPerPage_pos | apply length_nonneg].
Qed.

(** [Math.ceil(n / d)] in integer arithmetic. *)
Lemma totalPages_ceil s :
  totalPages s =
  (Js.length (posts s) + postsPerPage s - 1) / postsPerPage s.
Proof.
  pose proof (postsPerPage_pos s) as P.
  pose proof (totalPages_bounds s) as B.
  apply Z.div_unique with
    (r := Js.length (posts s) + postsPerPage s - 1
          - postsPerPage s * totalPages s); nia.
Qed.

(** ** Integer intervals and the push loop *)

Lemma interval_empty a b : b < a -> interval a b = [].
Proof.
  intros H. unfold interval.
  replace (Z.to_nat (b + 1 - a)) with 0%nat by lia. reflexivity.
Qed.

Lemma interval_cons a b : a <= b -> interval a b = a :: interval (a + 1) b.
Proof.
  intros H. unfold interval.
  replace (Z.to_nat (b + 1 - a)) with (S (Z.to_nat (b + 1 - (a + 1)))) by lia.
  cbn [seq map]. f_equal; [lia|].
  rewrite <- seq_shift, map_map. apply map_ext. intros k. lia.
Qed.

Lemma interval_length a b :
  Js.length (interval a b) = Z.max (b + 1 - a) 0.
Proof.
  unfold Js.length, interval. rewrite length_map, length_seq. lia.
Qed.

Lemma interval_nth a b k :
  nth_error (interval a b) k =
  if Z.of_nat k <? b + 1 - a then Some (a + Z.of_nat k) else None.
Proof.
  unfold interval. rewrite nth_error_map.
  destruct (Z.ltb_spec (Z.of_nat k) (b + 1 - a)) as [Hk|Hk].
  - rewrite nth_error_seq.
    destruct (Nat.ltb_spec k (Z.to_nat (b + 1 - a))); [reflexivity | lia].
  - replace (nth_error (seq 0 (Z.to_nat (b + 1 - a))) k) with (@None nat);
      [reflexivity|].
    symmetry. apply nth_error_None. rewrite length_seq. lia.
Qed.

Lemma interval_In a b x : In x (interval a b) <-> a <= x <= b.
Proof.
  unfold interval. rewrite in_map_iff. split.
  - intros [k [<- Hk]]. apply in_seq in Hk. lia.
  - intros H. exists (Z.to_nat (x - a)). split; [lia|].
    apply in_seq. lia.
Qed.

(** The loop appends the interval from its counter to [endPage]; since
    [pushPages] is total, this is also its termination with that result. *)
Lemma pushPages_interval i endPage pages :
  pushPages i endPage pages = pages ++ interval i endPage.
Proof.
  funelim (pushPages i endPage pages).
  - rewrite H. rewrite <- app_assoc. cbn [app].
    rewrite (interval_cons i endPage) by lia. reflexivity.
  - rewrite interval_empty by lia. rewrite app_nil_r. reflexivity.
Qed.

(** ** The visible page-number window *)

Lemma interval_ascending_run a b : ascending_run (interval a b).
Proof.
  intros k x y. rewrite !interval_nth.
  destruct (Z.ltb_spec (Z.of_nat k) (b + 1 - a)); [|discriminate].
  destruct (Z.ltb_spec (Z.of_nat (S k)) (b + 1 - a)); [|discriminate].
  intros [= <-] [= <-]. lia.
Qed.

Lemma maxVisiblePages_cases s :
  maxVisiblePages s = 3 \/ maxVisiblePages s = 5.
Proof. unfold maxVisiblePages. destruct (isMobile s); auto. Qed.

Lemma getPageNumbers_window s :
  getPageNumbers s =
  visiblePageNumbers (maxVisiblePages s) (totalPages s) (currentPage s).
Proof.
  unfold getPageNumbers, visiblePageNumbers, Js.max, Js.min.
  rewrite pushPages_interval, floor_div by lia. reflexivity.
Qed.

(** Where the window starts, whatever the current page is. *)
Lemma getPageNumbers_first s :
  exists first,
    1 <= first /\
    getPageNumbers s =
      interval first
        (first + Z.min (maxVisiblePages s) (totalPages s) - 1) /\
    (1 <= currentPage s <= totalPages s ->
     first <= currentPage s
       <= first + Z.min (maxVisiblePages s) (totalPages s) - 1).
Proof.
  rewrite getPageNumbers_window. unfold visiblePageNumbers.
  pose proof (totalPages_nonneg s) as HT.
  set (T := totalPages s) in *. set (c := currentPage s).
  destruct (maxVisiblePages_cases s) as [-> | ->];
    [change (3 / 2) with 1 | change (5 / 2) with 2];
    match goal with
    | |- context [if ?b then ?x else ?y] => exists (if b then x else y)
    end;
    match goal with
    | |- context [?a <? ?b] => destruct (Z.ltb_spec a b)
    end;
    repeat split; try lia; f_equal; lia.
Qed.

(** ** Slices *)

Lemma firstn_min_length {A} (n : nat) (l : list A) :
  firstn (Nat.min n (List.length l)) l = firstn n l.
Proof.
  rewrite <- firstn_firstn. rewrite firstn_all. reflexivity.
Qed.

Lemma firstn_add_skipn {A} (a b : nat) (l : list A) :
  firstn (a + b) l = firstn a l ++ firstn b (skipn a l).
Proof.
  revert l. induction a as [|a IH]; intros l; [reflexivity|].
  destruct l as [|x l]; cbn [Nat.add firstn skipn app].
  - rewrite firstn_nil. reflexivity.
  - rewrite IH. reflexivity.
Qed.

(** With indices in order and not negative, [slice] is "drop, then take". *)
Lemma slice_take_drop {A} (arr : list A) (a b : Z) :
  0 <= a <= b ->
  Js.slice arr a b = firstn (Z.to_nat (b - a)) (skipn (Z.to_nat a) arr).
Proof.
  intros H. unfold Js.slice, Js.relative, Js.length.
  destruct (Z.ltb_spec a 0); [lia|]. destruct (Z.ltb_spec b 0); [lia|].
  destruct (Z_le_gt_dec (Z.of_nat (List.length arr)) a) as [Hlen|Hlen].
  - rewrite (skipn_all2 arr) by lia. rewrite skipn_all2 by lia.
    rewrite !firstn_nil. reflexivity.
  - rewrite <- (firstn_min_length (Z.to_nat (b - a))).
    rewrite length_skipn.
    replace (Z.min a (Z.of_nat (List.length arr))) with a by lia.
    f_equal. lia.
Qed.

Lemma slice_prefix {A} (arr : list A) (n : Z) :
  0 <= n -> Js.slice arr 0 n = firstn (Z.to_nat n) arr.
Proof.
  intros H. rewrite slice_take_drop by lia.
  rewrite Z.sub_0_r. reflexivity.
Qed.

Lemma slice_beyond {A} (arr : list A) (a b : Z) :
  Js.length arr <= a -> Js.slice arr a b = [].
Proof.
  intros H. pose proof (length_nonneg arr) as Hn.
  unfold Js.slice, Js.relative.
  destruct (Z.ltb_spec a 0); [lia|].
  rewrite skipn_all2 by (unfold Js.length in *; lia).
  apply firstn_nil.
Qed.

Lemma pageSlice_take_drop (l : list Post) (pp p : Z) :
  0 < pp -> 1 <= p ->
  pageSlice l pp p =
  firstn (Z.to_nat pp) (skipn (Z.to_nat ((p - 1) * pp)) l).
Proof.
  intros Hpp Hp. unfold pageSlice, pageStart.
  rewrite slice_take_drop by nia. f_equal. lia.
Qed.

Lemma interval_snoc a b : a <= b + 1 -> interval a (b + 1) = interval a b ++ [b + 1].
Proof.
  intros H. unfold interval.
  replace (Z.to_nat (b + 1 + 1 - a)) with (S (Z.to_nat (b + 1 - a))) by lia.
  rewrite seq_S, map_app. cbn [map Nat.add]. do 2 f_equal. lia.
Qed.

(** The first [t] pages, one after the other, are the first [t * pp] posts. *)
Lemma pages_concat_prefix (l : list Post) (pp : Z) (t : nat) :
  0 < pp ->
  List.concat (map (pageSlice l pp) (interval 1 (Z.of_nat t))) =
  firstn (Z.to_nat (Z.of_nat t * pp)) l.
Proof.
  intros Hpp. induction t as [|t IH].
  - reflexivity.
  - replace (Z.of_nat (S t)) with (Z.of_nat t + 1) by lia.
    rewrite interval_snoc by lia.
    rewrite map_app, concat_app, IH. cbn [map List.concat].
    rewrite app_nil_r, pageSlice_take_drop by lia.
    replace (Z.to_nat ((Z.of_nat t + 1) * pp))
      with (Z.to_nat (Z.of_nat t * pp) + Z.to_nat pp)%nat by nia.
    rewrite firstn_add_skipn. do 3 f_equal. lia.
Qed.

Lemma pageCount_bounds (l : list Post) (pp : Z) :
  0 < pp ->
  0 <= pageCount l pp /\
  (pageCount l pp - 1) * pp < Js.length l <= pageCount l pp * pp.
Proof.
  intros Hpp. unfold pageCount. split.
  - apply ceil_div_nonneg; [assumption | apply length_nonneg].
  - apply ceil_div_bounds; assumption.
Qed.

Lemma pages_concat (l : list Post) (pp : Z) :
  0 < pp ->
  List.concat (map (pageSlice l pp) (interval 1 (pageCount l pp))) = l.
Proof.
  intros Hpp. destruct (pageCount_bounds l pp Hpp) as [H0 [_ Hup]].
  rewrite <- (Z2Nat.id (pageCount l pp)) at 1 by assumption.
  rewrite pages_concat_prefix by assumption.
  apply firstn_all2. unfold Js.length in Hup. lia.
Qed.

(** The same for the component: paging through a state shows every post
    once, in order. *)
Lemma currentPosts_pages_concat s :
  List.concat (map (fun p => currentPosts (setCurrentPage p s))
                   (interval 1 (totalPages s))) = posts s.
Proof. apply (pages_concat (posts s) (postsPerPage s)), postsPerPage_pos. Qed.

(** Element [j] of page [p] is the post at index [(p - 1) * pp + j]. *)
Lemma pageSlice_nth (l : list Post) (pp p : Z) (j : nat) (x : Post) :
  0 < pp -> 1 <= p ->
  nth_error (pageSlice l pp p) j = Some x ->
  Z.of_nat j < pp /\
  nth_error l (Z.to_nat ((p - 1) * pp + Z.of_nat j)) = Some x.
Proof.
  intros Hpp Hp. rewrite pageSlice_take_drop by assumption. intros Hx.
  assert (Hj : (j < Z.to_nat pp)%nat).
  { destruct (Nat.lt_ge_cases j (Z.to_nat pp)) as [|Hge]; [assumption|].
    rewrite nth_error_firstn in Hx.
    destruct (Nat.ltb_spec j (Z.to_nat pp)); [lia | discriminate]. }
  split; [lia|].
  rewrite nth_error_firstn in Hx.
  destruct (Nat.ltb_spec j (Z.to_nat pp)); [|lia].
  rewrite nth_error_skipn in Hx. rewrite <- Hx. f_equal. nia.
Qed.

(** ** What the fetch leaves behind *)

Lemma fetchSettled_frame net s :
  loading (fetchSettled net s) = false /\
  currentPage (fetchSettled net s) = currentPage s /\
  isMobile (fetchSettled net s) = isMobile s.
Proof. fetch_cases net; repeat split. Qed.

Lemma fetchSettled_posts net s :
  posts (fetchSettled net s) = posts s \/
  exists data, posts (fetchSettled net s) = Js.slice data 0 100.
Proof. fetch_cases net; try (left; reflexivity). right. eexists. reflexivity. Qed.

Lemma slice_100_length {A} (data : list A) :
  Js.length (Js.slice data 0 100) = Z.min 100 (Js.length data).
Proof.
  rewrite slice_prefix by lia. unfold Js.length.
  rewrite length_firstn. lia.
Qed.

(** ** Invariants of the reachable states *)

Lemma pageCount_nil pp : 0 < pp -> pageCount [] pp = 0.
Proof.
  intros Hpp. apply ceil_div_unique; [assumption|].
  change (Js.length (@nil Post)) with 0. lia.
Qed.

Lemma totalPages_le_narrow s : totalPages s <= pageCount (posts s) 4.
Proof.
  pose proof (totalPages_bounds s) as B.
  pose proof (pageCount_bounds (posts s) 4 ltac:(lia)) as [N0 N].
  set (T := totalPages s) in *. unfold postsPerPage in B.
  destruct (isMobile s); nia.
Qed.

Lemma totalPages_narrow s :
  isMobile s = true -> totalPages s = pageCount (posts s) 4.
Proof. intros H. unfold totalPages, postsPerPage. rewrite H. reflexivity. Qed.

Lemma handlePageChange_cases page s :
  (1 <= page <= totalPages s /\
   handlePageChange page s = (setCurrentPage page s, [ScrollToTopSmooth])) \/
  ((page < 1 \/ totalPages s < page) /\ handlePageChange page s = (s, [])).
Proof.
  unfold handlePageChange.
  destruct (Z.leb_spec 1 page); destruct (Z.leb_spec page (totalPages s));
    cbn [andb]; [left | right ..]; split; auto; lia.
Qed.

(** While the request is in flight nothing has been stored or selected. *)
Lemma reachable_in_flight s :
  reachable s -> loading s = true ->
  posts s = [] /\ error s = None /\ currentPage s = 1.
Proof.
  induction 1 as [| s w _ IH | s net _ _ _ | s page _ IH]; intros Hl.
  - repeat split.
  - apply IH. exact Hl.
  - destruct (fetchSettled_frame net s) as [Hf _]. congruence.
  - destruct (handlePageChange_cases page s) as [[Hp E] | [_ E]];
      rewrite E in *; cbn [fst] in *; [|auto].
    destruct (IH Hl) as [Hposts _].
    unfold totalPages in Hp. rewrite Hposts, pageCount_nil in Hp
      by apply postsPerPage_pos. lia.
Qed.

(** The current page never leaves the page range of the narrow layout. *)
Lemma reachable_page_bound s :
  reachable s ->
  1 <= currentPage s <= Z.max 1 (pageCount (posts s) 4).
Proof.
  induction 1 as [| s w _ IH | s net Hr _ Hl | s page _ IH].
  - cbn. lia.
  - exact IH.
  - destruct (fetchSettled_frame net s) as [_ [-> _]].
    destruct (reachable_in_flight s Hr Hl) as [_ [_ ->]]. lia.
  - destruct (handlePageChange_cases page s) as [[Hp E] | [_ E]];
      rewrite E; cbn [fst]; [|exact IH].
    pose proof (totalPages_le_narrow s).
    change (posts (setCurrentPage page s)) with (posts s).
    change (currentPage (setCurrentPage page s)) with page. lia.
Qed.

Lemma reachable_posts_length s :
  reachable s -> Js.length (posts s) <= 100.
Proof.
  induction 1 as [| s w _ IH | s net _ IH _ | s page _ IH].
  - cbn. lia.
  - exact IH.
  - destruct (fetchSettled_posts net s) as [-> | [data ->]]; [exact IH|].
    rewrite slice_100_length. lia.
  - destruct (handlePageChange_cases page s) as [[_ E] | [_ E]];
      rewrite E; exact IH.
Qed.

Lemma page_in_range_navigation page s :
  page_in_range s -> page_in_range (fst (handlePageChange page s)).
Proof.
  intros Hs.
  destruct (handlePageChange_cases page s) as [[Hp E] | [_ E]];
    rewrite E; cbn [fst]; [|exact Hs].
  intros _. exact Hp.
Qed.

Lemma page_in_range_fetch net s :
  reachable s -> loading s = true -> page_in_range (fetchSettled net s).
Proof.
  intros Hr Hl HT.
  destruct (fetchSettled_frame net s) as [_ [-> _]].
  destruct (reachable_in_flight s Hr Hl) as [_ [_ ->]]. lia.
Qed.

Lemma page_in_range_resize innerWidth s :
  (isMobile s = true -> innerWidth <= 768) ->
  page_in_range s -> page_in_range (checkMobile innerWidth s).
Proof.
  intros Hw Hs. unfold page_in_range, checkMobile in *.
  change (currentPage (setIsMobile (innerWidth <=? 768) s))
    with (currentPage s).
  pose proof (totalPages_bounds s) as B.
  pose proof (totalPages_bounds (setIsMobile (innerWidth <=? 768) s)) as B'.
  change (posts (setIsMobile (innerWidth <=? 768) s)) with (posts s) in B'.
  pose proof (totalPages_nonneg s) as N.
  set (T := totalPages s) in *.
  set (T' := totalPages (setIsMobile (innerWidth <=? 768) s)) in *.
  unfold postsPerPage in B, B'. cbn [isMobile setIsMobile] in B'.
  destruct (Z.leb_spec innerWidth 768); destruct (isMobile s) eqn:Em;
    try (specialize (Hw eq_refl)); nia.
Qed.

(** ** Strings as character lists *)

Lemma chars_append (s1 s2 : string) :
  list_ascii_of_string (s1 ++ s2) =
  list_ascii_of_string s1 ++ list_ascii_of_string s2.
Proof.
  induction s1 as [|c s1 IH]; cbn; [reflexivity|]. rewrite IH. reflexivity.
Qed.

Lemma chars_length (s : string) :
  List.length (list_ascii_of_string s) = String.length s.
Proof.
  induction s as [|c s IH]; cbn; [reflexivity|]. rewrite IH. reflexivity.
Qed.

Lemma chars_prefix (n : nat) (s : string) :
  list_ascii_of_string (String.substring 0 n s) =
  firstn n (list_ascii_of_string s).
Proof.
  revert s. induction n as [|n IH]; intros [|c s]; cbn; try reflexivity.
  rewrite IH. reflexivity.
Qed.

Lemma substring_prefix (text : string) (n : Z) :
  n <= Js.strlen text ->
  Js.substring text 0 n = String.substring 0 (Z.to_nat n) text.
Proof.
  intros H. unfold Js.substring, Js.clamp.
  pose proof (Nat2Z.is_nonneg (String.length text)) as Hlen.
  unfold Js.strlen in *. f_equal; lia.
Qed.

(** ** The palette *)

Lemma colors_length : Js.length colors = 6.
Proof. reflexivity. Qed.

Lemma colors_lookup (k : Z) :
  0 <= k < 6 -> exists c, Js.index colors k = Some c /\ In c colors.
Proof.
  intros H. unfold Js.index.
  destruct (Z.ltb_spec k 0); [lia|].
  destruct (nth_error colors (Z.to_nat k)) as [c|] eqn:E.
  - exists c. split; [reflexivity|]. eapply nth_error_In, E.
  - apply nth_error_None in E. cbn in E. lia.
Qed.

(** ** The scenario states are reachable *)

Lemma lastNarrowPageState_reachable : reachable lastNarrowPageState.
Proof.
  unfold lastNarrowPageState. do 3 apply reach_page.
  apply reach_fetch; [apply reach_resize, reach_mount | reflexivity].
Qed.

Lemma stalePageState_reachable : reachable stalePageState.
Proof. apply reach_resize, lastNarrowPageState_reachable. Qed.

(** * Properties of the specification *)

(** ** Page-number window *)

(** C1, as the specification states it, fails on a reachable state: after
    a narrow-to-wide resize on page 4 of 13 posts there are 2 pages, and the
    window [1; 2] does not contain the current page. *)
Lemma getPageNumbers_misses_stale_page :
  reachable stalePageState /\
  1 <= totalPages stalePageState /\
  currentPage stalePageState = 4 /\
  getPageNumbers stalePageState = [1; 2] /\
  ~ In (currentPage stalePageState) (getPageNumbers stalePageState).
Proof.
  split; [exact stalePageState_reachable|].
  split; [vm_compute; discriminate|].
  split; [reflexivity|]. split; [reflexivity|].
  vm_compute. intros [H | [H | []]]; discriminate.
Qed.

(** C1 (amended): for every posts list and every current page,
    [getPageNumbers] returns a strictly ascending contiguous run of page
    numbers, starting at 1 or later, whose length is
    [min(maxVisiblePages, totalPages)]; the run contains [currentPage]
    whenever [1 <= currentPage <= totalPages]. *)
Theorem getPageNumbers_contiguous_run s :
  ascending_run (getPageNumbers s) /\
  (forall page, In page (getPageNumbers s) -> 1 <= page) /\
  Js.length (getPageNumbers s) = Z.min (maxVisiblePages s) (totalPages s) /\
  (1 <= currentPage s <= totalPages s ->
   In (currentPage s) (getPageNumbers s)).
Proof.
  destruct (getPageNumbers_first s) as [first [H1 [E Hc]]].
  pose proof (totalPages_nonneg s) as HT.
  pose proof (maxVisiblePages_cases s) as HM.
  rewrite E. repeat split.
  - apply interval_ascending_run.
  - intros page Hp. apply interval_In in Hp. lia.
  - rewrite interval_length. lia.
  - intros Hin. apply interval_In. apply Hc, Hin.
Qed.

Lemma getPageNumbers_contiguous_run_witness :
  let s := mkState (samplePosts 80) false None 5 false in
  1 <= currentPage s <= totalPages s /\
  In (currentPage s) (getPageNumbers s).
Proof.
  intros s.
  assert (H : 1 <= currentPage s <= totalPages s)
    by (vm_compute; split; discriminate).
  split; [exact H|].
  exact (proj2 (proj2 (proj2 (getPageNumbers_contiguous_run s))) H).
Defined.

(** C5: [getPageNumbers] is the windowing algorithm of the specification,
    and with 10 pages and 5 buttons it yields [1..5] on page 1, [6..10] on
    page 10 and [3..7] on page 5. *)
Theorem getPageNumbers_windowing s :
  getPageNumbers s =
    visiblePageNumbers (maxVisiblePages s) (totalPages s) (currentPage s) /\
  (maxVisiblePages s = 5 -> totalPages s = 10 ->
   (currentPage s = 1 -> getPageNumbers s = [1; 2; 3; 4; 5]) /\
   (currentPage s = 10 -> getPageNumbers s = [6; 7; 8; 9; 10]) /\
   (currentPage s = 5 -> getPageNumbers s = [3; 4; 5; 6; 7])).
Proof.
  split; [apply getPageNumbers_window|].
  intros HM HT. rewrite getPageNumbers_window, HM, HT.
  repeat split; intros ->; reflexivity.
Qed.

Lemma getPageNumbers_windowing_witness :
  let s c := mkState (samplePosts 80) false None c false in
  (maxVisiblePages (s 1) = 5 /\ totalPages (s 1) = 10) /\
  getPageNumbers (s 1) = [1; 2; 3; 4; 5] /\
  getPageNumbers (s 10) = [6; 7; 8; 9; 10] /\
  getPageNumbers (s 5) = [3; 4; 5; 6; 7].
Proof.
  intros s.
  assert (HM : forall c, maxVisiblePages (s c) = 5) by reflexivity.
  assert (HT : forall c, totalPages (s c) = 10) by reflexivity.
  split; [split; [apply HM | apply HT]|].
  split; [|split].
  - exact (proj1 (proj2 (getPageNumbers_windowing (s 1)) (HM 1) (HT 1))
             eq_refl).
  - exact (proj1 (proj2 (proj2 (getPageNumbers_windowing (s 10))
                                (HM 10) (HT 10))) eq_refl).
  - exact (proj2 (proj2 (proj2 (getPageNumbers_windowing (s 5))
                                (HM 5) (HT 5))) eq_refl).
Defined.

(** ** Page slices *)

(** C2: for every non-empty posts list and every page size above 0, the
    slices of pages [1..totalPages], one after the other, are exactly the
    posts list; their lengths add up to its length; and element [j] of
    page [p] is the post at index [(p - 1) * postsPerPage + j] with
    [j < postsPerPage], so every index of an earlier page lies below every
    index of a later page (the pages are disjoint and in order). *)
Theorem page_slices_partition (l : list Post) (pp : Z) :
  l <> [] -> 0 < pp ->
  List.concat (map (pageSlice l pp) (interval 1 (pageCount l pp))) = l /\
  list_sum (map (fun p => List.length (pageSlice l pp p))
                (interval 1 (pageCount l pp))) = List.length l /\
  (forall p j x,
     1 <= p <= pageCount l pp ->
     nth_error (pageSlice l pp p) j = Some x ->
     Z.of_nat j < pp /\
     nth_error l (Z.to_nat ((p - 1) * pp + Z.of_nat j)) = Some x) /\
  (forall p q j k x y,
     1 <= p -> p < q -> q <= pageCount l pp ->
     nth_error (pageSlice l pp p) j = Some x ->
     nth_error (pageSlice l pp q) k = Some y ->
     (p - 1) * pp + Z.of_nat j < (q - 1) * pp + Z.of_nat k).
Proof.
  intros _ Hpp. split; [apply pages_concat, Hpp|]. split; [|split].
  - rewrite <- (pages_concat l pp Hpp) at 2.
    rewrite length_concat, map_map. reflexivity.
  - intros p j x Hp. apply pageSlice_nth; [assumption | lia].
  - intros p q j k x y Hp Hpq Hq Hx Hy.
    apply pageSlice_nth in Hx; [|assumption | lia]. nia.
Qed.

Lemma page_slices_partition_witness :
  let l := samplePosts 13 in
  (l <> [] /\ 0 < 4) /\
  List.concat (map (pageSlice l 4) (interval 1 (pageCount l 4))) = l.
Proof.
  intros l.
  assert (Hl : l <> []) by discriminate.
  assert (Hpp : 0 < 4) by reflexivity.
  split; [split; assumption|].
  exact (proj1 (page_slices_partition l 4 Hl Hpp)).
Defined.

(** C6: whenever [currentPage] exceeds [totalPages], the current page
    slice is empty. *)
Theorem currentPosts_empty_beyond_last_page s :
  totalPages s < currentPage s -> currentPosts s = [].
Proof.
  intros H. unfold currentPosts, pageSlice, pageStart.
  apply slice_beyond.
  pose proof (totalPages_bounds s) as B.
  pose proof (postsPerPage_pos s) as P. nia.
Qed.

Lemma currentPosts_empty_beyond_last_page_witness :
  totalPages stalePageState < currentPage stalePageState /\
  currentPosts stalePageState = [].
Proof.
  assert (H : totalPages stalePageState < currentPage stalePageState)
    by reflexivity.
  split; [exact H|].
  exact (currentPosts_empty_beyond_last_page stalePageState H).
Defined.

(** ** Navigation *)

(** C3, as the specification states it, fails: a reachable state satisfies
    the interval invariant, and the resize to a wide viewport that follows
    leaves 2 pages with the current page still 4. *)
Lemma resize_breaks_page_range :
  reachable lastNarrowPageState /\
  page_in_range lastNarrowPageState /\
  reachable (checkMobile 1024 lastNarrowPageState) /\
  1 <= totalPages (checkMobile 1024 lastNarrowPageState) /\
  ~ (1 <= currentPage (checkMobile 1024 lastNarrowPageState)
       <= totalPages (checkMobile 1024 lastNarrowPageState)).
Proof.
  pose proof lastNarrowPageState_reachable as Hr.
  split; [exact Hr|]. split.
  - intros _. vm_compute. split; discriminate.
  - split; [apply reach_resize, Hr|].
    split; [vm_compute; discriminate|].
    vm_compute. intros [_ H]. apply H. reflexivity.
Qed.

(** C3 (amended): in every reachable state [currentPage >= 1], and
    [currentPage] lies in [[1, totalPages]] whenever [totalPages >= 1] and
    the viewport is narrow; the interval invariant is preserved by page
    navigation, by the completion of the fetch, and by every resize other
    than one from a narrow to a wide viewport.  Every resize leaves
    [currentPage] and every other field but [isMobile] unchanged; a resize
    from narrow to wide cannot raise [totalPages], so after it the
    invariant holds exactly when the unchanged [currentPage] does not
    exceed the new [totalPages], and there is a reachable state in which it
    does exceed it. *)
Theorem reachable_page_range s :
  reachable s ->
  1 <= currentPage s /\
  (isMobile s = true -> page_in_range s) /\
  (page_in_range s ->
   (forall page, page_in_range (fst (handlePageChange page s))) /\
   (forall net, loading s = true -> page_in_range (fetchSettled net s)) /\
   (forall innerWidth,
      (isMobile s = true -> innerWidth <= 768) ->
      page_in_range (checkMobile innerWidth s))) /\
  (forall innerWidth,
     currentPage (checkMobile innerWidth s) = currentPage s /\
     posts (checkMobile innerWidth s) = posts s /\
     loading (checkMobile innerWidth s) = loading s /\
     error (checkMobile innerWidth s) = error s /\
     isMobile (checkMobile innerWidth s) = (innerWidth <=? 768)) /\
  (forall innerWidth,
     isMobile s = true -> 768 < innerWidth ->
     totalPages (checkMobile innerWidth s) <= totalPages s /\
     (page_in_range (checkMobile innerWidth s) <->
      (1 <= totalPages (checkMobile innerWidth s) ->
       currentPage s <= totalPages (checkMobile innerWidth s)))) /\
  (exists s0 innerWidth,
     reachable s0 /\ page_in_range s0 /\
     isMobile s0 = true /\ 768 < innerWidth /\
     currentPage (checkMobile innerWidth s0) = currentPage s0 /\
     1 <= totalPages (checkMobile innerWidth s0)
       < currentPage (checkMobile innerWidth s0)).
Proof.
  intros Hr. pose proof (reachable_page_bound s Hr) as B.
  split; [lia|]. split; [|split; [|split; [|split]]].
  - intros Hm HT. rewrite (totalPages_narrow s Hm) in *. lia.
  - intros Hs. split; [|split].
    + intros page. apply page_in_range_navigation, Hs.
    + intros net Hl. apply page_in_range_fetch; assumption.
    + intros w Hw. apply page_in_range_resize; assumption.
  - intros w. repeat split.
  - intros w Hm Hw.
    assert (Ew : checkMobile w s = setIsMobile false s).
    { unfold checkMobile. destruct (Z.leb_spec w 768); [lia | reflexivity]. }
    rewrite Ew. unfold page_in_range.
    change (currentPage (setIsMobile false s)) with (currentPage s).
    pose proof (totalPages_bounds s) as Bs.
    pose proof (totalPages_bounds (setIsMobile false s)) as Bw.
    unfold postsPerPage in Bs, Bw. rewrite Hm in Bs.
    cbn [isMobile posts setIsMobile] in Bw.
    pose proof (totalPages_nonneg s) as N.
    split; [lia|]. split; intros H HT; specialize (H HT); lia.
  - exists lastNarrowPageState, 1024.
    split; [exact lastNarrowPageState_reachable|].
    split; [intros _; vm_compute; split; discriminate|].
    split; [reflexivity|]. split; [reflexivity|]. split; [reflexivity|].
    vm_compute. split; [discriminate | reflexivity].
Qed.

Lemma reachable_page_range_witness :
  reachable lastNarrowPageState /\
  1 <= currentPage lastNarrowPageState /\
  page_in_range lastNarrowPageState /\
  page_in_range (checkMobile 320 lastNarrowPageState) /\
  currentPage (checkMobile 1024 lastNarrowPageState)
    = currentPage lastNarrowPageState /\
  ~ page_in_range (checkMobile 1024 lastNarrowPageState).
Proof.
  pose proof lastNarrowPageState_reachable as Hr.
  destruct (reachable_page_range lastNarrowPageState Hr)
    as [H1 [Hn [Hp [Hframe [Hwide _]]]]].
  assert (Hs : page_in_range lastNarrowPageState) by (apply Hn; reflexivity).
  split; [exact Hr|]. split; [exact H1|]. split; [exact Hs|].
  split; [|split].
  - apply (proj2 (proj2 (Hp Hs)) 320). intros _. vm_compute. discriminate.
  - exact (proj1 (Hframe 1024)).
  - intros Hin.
    pose proof (proj1 (proj2 (Hwide 1024 eq_refl eq_refl)) Hin) as Hle.
    assert (HT : 1 <= totalPages (checkMobile 1024 lastNarrowPageState))
      by (vm_compute; discriminate).
    specialize (Hle HT). vm_compute in Hle. apply Hle. reflexivity.
Defined.

(** C4: [handlePageChange n] leaves the whole state unchanged, with no
    side effect, for every [n < 1] and every [n > totalPages]; for
    [1 <= n <= totalPages] it sets [currentPage] to [n], changes no other
    state field, and requests the smooth scroll to the top. *)
Theorem handlePageChange_frame (n : Z) (s : BrowserState) :
  (n < 1 \/ totalPages s < n -> handlePageChange n s = (s, [])) /\
  (1 <= n <= totalPages s ->
   currentPage (fst (handlePageChange n s)) = n /\
   posts (fst (handlePageChange n s)) = posts s /\
   loading (fst (handlePageChange n s)) = loading s /\
   error (fst (handlePageChange n s)) = error s /\
   isMobile (fst (handlePageChange n s)) = isMobile s /\
   snd (handlePageChange n s) = [ScrollToTopSmooth]).
Proof.
  destruct (handlePageChange_cases n s) as [[Hp E] | [Hp E]]; rewrite E.
  - split; [lia|]. intros _. repeat split.
  - split; [reflexivity|]. lia.
Qed.

Lemma handlePageChange_frame_witness :
  (0 < 1 \/ totalPages lastNarrowPageState < 0) /\
  handlePageChange 0 lastNarrowPageState = (lastNarrowPageState, []) /\
  1 <= 2 <= totalPages lastNarrowPageState /\
  currentPage (fst (handlePageChange 2 lastNarrowPageState)) = 2.
Proof.
  assert (Hout : 0 < 1 \/ totalPages lastNarrowPageState < 0)
    by (left; reflexivity).
  assert (Hin : 1 <= 2 <= totalPages lastNarrowPageState)
    by (vm_compute; split; discriminate).
  split; [exact Hout|].
  split; [exact (proj1 (handlePageChange_frame 0 lastNarrowPageState) Hout)|].
  split; [exact Hin|].
  exact (proj1 (proj2 (handlePageChange_frame 2 lastNarrowPageState) Hin)).
Defined.

(** ** Fetch outcomes *)

(** C7: when the response has a non-success status, the error is the
    fixed message "Failed to fetch posts", [loading] becomes false and
    [posts] remains empty; when the request or the decoding throws, the
    error is the thrown error's message, or "An error occurred" when the
    thrown value is not an [Error]. *)
Theorem fetchPosts_failure (s : BrowserState) :
  reachable s -> loading s = true ->
  (forall payload,
     let net := inr (mkResponse false payload) in
     fst (fetchPosts net s) = inr tt /\
     error (fetchSettled net s) = Some "Failed to fetch posts"%string /\
     loading (fetchSettled net s) = false /\
     posts (fetchSettled net s) = []) /\
  (forall thrown net,
     net = inl thrown \/ net = inr (mkResponse true (inl thrown)) ->
     fst (fetchPosts net s) = inr tt /\
     error (fetchSettled net s) =
       Some match thrown with
            | Js.ErrorObject message => message
            | Js.OtherValue => "An error occurred"%string
            end /\
     loading (fetchSettled net s) = false /\
     posts (fetchSettled net s) = []).
Proof.
  intros Hr Hl. destruct (reachable_in_flight s Hr Hl) as [Hp _]. split.
  - intros [thrown | data] net; repeat split; exact Hp.
  - intros thrown net [-> | ->]; destruct thrown; repeat split; exact Hp.
Qed.

Lemma fetchPosts_failure_witness :
  (reachable initialState /\ loading initialState = true) /\
  error (fetchSettled (inr (mkResponse false (inr (samplePosts 3))))
           initialState)
    = Some "Failed to fetch posts"%string /\
  error (fetchSettled (inl (Js.ErrorObject "NetworkError")) initialState)
    = Some "NetworkError"%string /\
  error (fetchSettled (inl Js.OtherValue) initialState)
    = Some "An error occurred"%string.
Proof.
  pose proof (fetchPosts_failure initialState reach_mount eq_refl) as [H5 Hx].
  split; [split; [exact reach_mount | reflexivity]|].
  split; [exact (proj1 (proj2 (H5 (inr (samplePosts 3)))))|].
  split.
  - exact (proj1 (proj2 (Hx (Js.ErrorObject "NetworkError") _
                            (or_introl eq_refl)))).
  - exact (proj1 (proj2 (Hx Js.OtherValue _ (or_introl eq_refl)))).
Defined.

(** C8: on a successful fetch of any array, the stored posts are the first
    [min(100, length)] records of the array in order; hence
    [posts.length <= 100] in every reachable state, and a response of 150
    records keeps exactly its first 100. *)
Theorem fetchPosts_keeps_first_100 :
  (forall s data,
     posts (fetchSettled (okResponse data) s) = firstn 100 data /\
     Js.length (posts (fetchSettled (okResponse data) s))
       = Z.min 100 (Js.length data) /\
     loading (fetchSettled (okResponse data) s) = false) /\
  (forall s, reachable s -> Js.length (posts s) <= 100) /\
  (forall s data,
     Js.length data = 150 ->
     posts (fetchSettled (okResponse data) s) = firstn 100 data /\
     Js.length (posts (fetchSettled (okResponse data) s)) = 100).
Proof.
  assert (E : forall s data,
             posts (fetchSettled (okResponse data) s) = firstn 100 data).
  { intros s data. change (posts (fetchSettled (okResponse data) s))
      with (Js.slice data 0 100).
    rewrite slice_prefix by lia. reflexivity. }
  assert (L : forall s data,
             Js.length (posts (fetchSettled (okResponse data) s))
             = Z.min 100 (Js.length data)).
  { intros s data. apply (slice_100_length data). }
  split; [|split].
  - intros s data. repeat split; [apply E | apply L].
  - apply reachable_posts_length.
  - intros s data H. split; [apply E|]. rewrite L, H. reflexivity.
Qed.

Lemma fetchPosts_keeps_first_100_witness :
  Js.length (samplePosts 150) = 150 /\
  Js.length (posts (fetchSettled (okResponse (samplePosts 150)) initialState))
    = 100 /\
  Js.length (posts stalePageState) <= 100.
Proof.
  assert (H : Js.length (samplePosts 150) = 150) by reflexivity.
  split; [exact H|]. split.
  - exact (proj2 (proj2 (proj2 fetchPosts_keeps_first_100)
                        initialState (samplePosts 150) H)).
  - exact (proj1 (proj2 fetchPosts_keeps_first_100)
             stalePageState stalePageState_reachable).
Defined.

(** ** Excerpts and colours *)

(** C9: [truncateText text limit] is [text] itself when
    [text.length <= limit], and otherwise the first [limit] characters of
    [text] followed by the three characters "..."; a text of 150
    characters cut at 120 has 123 characters; the limit of the card
    excerpt is 120. *)
Theorem truncateText_spec (text : string) (limit : Z) :
  (Js.strlen text <= limit -> truncateText text limit = text) /\
  (limit < Js.strlen text ->
   list_ascii_of_string (truncateText text limit) =
     firstn (Z.to_nat limit) (list_ascii_of_string text)
       ++ list_ascii_of_string "..." /\
   (0 <= limit -> Js.strlen (truncateText text limit) = limit + 3)) /\
  (Js.strlen text = 150 -> Js.strlen (truncateText text 120) = 123) /\
  (forall post, excerpt post = truncateText (body post) 120).
Proof.
  assert (Hcut : forall n, n < Js.strlen text ->
    list_ascii_of_string (truncateText text n) =
      firstn (Z.to_nat n) (list_ascii_of_string text)
        ++ list_ascii_of_string "...").
  { intros n Hn. unfold truncateText.
    destruct (Z.gtb_spec (Js.strlen text) n); [|lia].
    rewrite chars_append, substring_prefix, chars_prefix by lia.
    reflexivity. }
  assert (Hlen : forall n, 0 <= n < Js.strlen text ->
    Js.strlen (truncateText text n) = n + 3).
  { intros n Hn. unfold Js.strlen at 1.
    rewrite <- chars_length, Hcut, length_app, length_firstn, chars_length
      by lia.
    unfold Js.strlen in Hn. cbn [list_ascii_of_string List.length]. lia. }
  split; [|split; [|split]].
  - intros H. unfold truncateText.
    destruct (Z.gtb_spec (Js.strlen text) limit); [lia | reflexivity].
  - intros H. split; [apply Hcut, H|]. intros H0. apply Hlen. lia.
  - intros H. apply Hlen. lia.
  - reflexivity.
Qed.

Lemma truncateText_spec_witness :
  (Js.strlen "short" <= 120 /\ truncateText "short" 120 = "short"%string) /\
  (5 < Js.strlen "hello world" /\ 0 <= 5 /\
   Js.strlen (truncateText "hello world" 5) = 5 + 3).
Proof.
  assert (H1 : Js.strlen "short" <= 120) by (vm_compute; discriminate).
  assert (H2 : 5 < Js.strlen "hello world") by reflexivity.
  assert (H3 : 0 <= 5) by (vm_compute; discriminate).
  split.
  - split; [exact H1|]. exact (proj1 (truncateText_spec "short" 120) H1).
  - split; [exact H2|]. split; [exact H3|].
    exact (proj2 (proj1 (proj2 (truncateText_spec "hello world" 5)) H2) H3).
Defined.

(** C10: for every index [>= 0], [getPostColorClass index] is a defined
    element of the palette of six classes, the one at position
    [index mod 6]; the colour repeats with period 6. *)
Theorem getPostColorClass_cycles (index : Z) :
  0 <= index ->
  Js.length colors = 6 /\
  (exists c,
     getPostColorClass index = Some c /\
     nth_error colors (Z.to_nat (index mod 6)) = Some c /\
     In c colors) /\
  getPostColorClass (index + 6) = getPostColorClass index.
Proof.
  intros H. split; [reflexivity|].
  unfold getPostColorClass, Js.rem. rewrite colors_length.
  rewrite !Z.rem_mod_nonneg by lia.
  pose proof (Z.mod_pos_bound index 6 ltac:(lia)) as B.
  split.
  - destruct (colors_lookup (index mod 6) B) as [c [E Hin]].
    exists c. split; [exact E|]. split; [|exact Hin].
    unfold Js.index in E.
    destruct (Z.ltb_spec (index mod 6) 0); [lia | exact E].
  - replace (index + 6) with (index + 1 * 6) by lia.
    rewrite Z_mod_plus_full. reflexivity.
Qed.

Lemma getPostColorClass_cycles_witness :
  0 <= 7 /\
  getPostColorClass 7 = Some "post-teal"%string /\
  getPostColorClass (7 + 6) = getPostColorClass 7.
Proof.
  assert (H : 0 <= 7) by (vm_compute; discriminate).
  pose proof (getPostColorClass_cycles 7 H) as [_ [_ E]].
  split; [exact H|]. split; [reflexivity | exact E].
Defined.

(** * Further properties of the component *)

(** ** The page-number window, case by case *)

Ltac window_cases s :=
  rewrite ?getPageNumbers_window; unfold visiblePageNumbers;
  pose proof (totalPages_nonneg s);
  destruct (maxVisiblePages_cases s) as [-> | ->];
  [change (3 / 2) with 1 | change (5 / 2) with 2];
  match goal with
  | |- context [?a <? ?b] => destruct (Z.ltb_spec a b)
  end.

Lemma interval_NoDup a b : NoDup (interval a b).
Proof.
  apply NoDup_nth_error. intros i j Hi. rewrite !interval_nth.
  assert (Hlen := interval_length a b). unfold Js.length in Hlen.
  destruct (Z.ltb_spec (Z.of_nat i) (b + 1 - a)); [|lia].
  destruct (Z.ltb_spec (Z.of_nat j) (b + 1 - a)); [|discriminate].
  intros [= E]. lia.
Qed.

Lemma getPageNumbers_bounds s page :
  In page (getPageNumbers s) -> 1 <= page <= totalPages s.
Proof.
  revert page. window_cases s; intros page Hp; apply interval_In in Hp; lia.
Qed.

(** X1: Every number in the pagination bar is an existing page, and no number
    appears twice (the numbers serve as React keys). *)
Theorem getPageNumbers_valid_pages s :
  NoDup (getPageNumbers s) /\
  (forall page, In page (getPageNumbers s) -> 1 <= page <= totalPages s) /\
  (totalPages s = 0 -> getPageNumbers s = []).
Proof.
  split; [|split].
  - rewrite getPageNumbers_window. apply interval_NoDup.
  - apply getPageNumbers_bounds.
  - intros HT. destruct (getPageNumbers s) as [|page rest] eqn:E; [reflexivity|].
    assert (Hin : In page (getPageNumbers s)) by (rewrite E; left; reflexivity).
    apply getPageNumbers_bounds in Hin. lia.
Qed.

Lemma getPageNumbers_valid_pages_witness :
  totalPages initialState = 0 /\ getPageNumbers initialState = [].
Proof.
  assert (H : totalPages initialState = 0) by reflexivity.
  split; [exact H|].
  exact (proj2 (proj2 (getPageNumbers_valid_pages initialState)) H).
Defined.

(** X2: The window in closed form, with [h = floor(maxVisiblePages / 2)]: all
    pages when there are no more pages than buttons; otherwise the first
    [maxVisiblePages] pages near the start, the last [maxVisiblePages]
    pages near the end (and for a stale current page beyond the end), and
    the pages [currentPage - h .. currentPage + h] in between. *)
Theorem getPageNumbers_shape s :
  let M := maxVisiblePages s in
  let T := totalPages s in
  let c := currentPage s in
  let h := M / 2 in
  (T <= M -> getPageNumbers s = interval 1 T) /\
  (M <= T -> c <= h + 1 -> getPageNumbers s = interval 1 M) /\
  (M <= T -> h < c <= T - h -> getPageNumbers s = interval (c - h) (c + h)) /\
  (M <= T -> T - h <= c -> getPageNumbers s = interval (T - M + 1) T).
Proof.
  cbv zeta. repeat split; window_cases s; intros; f_equal; lia.
Qed.

Lemma getPageNumbers_shape_witness :
  let s := mkState (samplePosts 80) false None 12 false in
  (maxVisiblePages s <= totalPages s /\
   totalPages s - maxVisiblePages s / 2 <= currentPage s) /\
  getPageNumbers s = [6; 7; 8; 9; 10].
Proof.
  intros s.
  assert (H1 : maxVisiblePages s <= totalPages s)
    by (vm_compute; discriminate).
  assert (H2 : totalPages s - maxVisiblePages s / 2 <= currentPage s)
    by (vm_compute; discriminate).
  split; [split; assumption|].
  exact (proj2 (proj2 (proj2 (getPageNumbers_shape s))) H1 H2).
Defined.

(** ** The posts of the current page *)

Lemma slice_length {A} (arr : list A) (a b : Z) :
  0 <= a <= b ->
  Js.length (Js.slice arr a b) = Z.max 0 (Z.min (b - a) (Js.length arr - a)).
Proof.
  intros H. rewrite slice_take_drop by assumption.
  unfold Js.length. rewrite length_firstn, length_skipn. lia.
Qed.

Lemma slice_index {A} (arr : list A) (a b j : Z) :
  0 <= a <= b ->
  Js.index (Js.slice arr a b) j =
  if (0 <=? j) && (j <? b - a) then Js.index arr (a + j) else None.
Proof.
  intros H. rewrite slice_take_drop by assumption. unfold Js.index.
  destruct (Z.ltb_spec j 0) as [Hj|Hj];
    [destruct (Z.leb_spec 0 j); [lia | reflexivity]|].
  destruct (Z.leb_spec 0 j); [|lia]. cbn [andb].
  destruct (Z.ltb_spec (a + j) 0); [lia|].
  rewrite nth_error_firstn, nth_error_skipn.
  destruct (Z.ltb_spec j (b - a));
    destruct (Nat.ltb_spec (Z.to_nat j) (Z.to_nat (b - a))); try lia;
    [f_equal; lia | reflexivity].
Qed.

Lemma startIndex_nonneg s : 1 <= currentPage s -> 0 <= startIndex s.
Proof.
  intros H. pose proof (postsPerPage_pos s).
  unfold startIndex, pageStart. nia.
Qed.

Lemma currentPosts_slice s :
  currentPosts s =
  Js.slice (posts s) (startIndex s) (startIndex s + postsPerPage s).
Proof. reflexivity. Qed.

(** X3: On a page [>= 1], entry [j] of the page is [posts[startIndex + j]] for
    [0 <= j < postsPerPage], and [undefined] for every other [j]. *)
Theorem currentPosts_index s j :
  1 <= currentPage s ->
  Js.index (currentPosts s) j =
  if (0 <=? j) && (j <? postsPerPage s)
  then Js.index (posts s) (startIndex s + j)
  else None.
Proof.
  intros H. pose proof (startIndex_nonneg s H). pose proof (postsPerPage_pos s).
  rewrite currentPosts_slice, slice_index by lia.
  replace (startIndex s + postsPerPage s - startIndex s)
    with (postsPerPage s) by lia.
  reflexivity.
Qed.

Lemma currentPosts_index_witness :
  1 <= currentPage lastNarrowPageState /\
  option_map id (Js.index (currentPosts lastNarrowPageState) 0) = Some 13.
Proof.
  assert (H : 1 <= currentPage lastNarrowPageState)
    by (vm_compute; discriminate).
  split; [exact H|].
  rewrite (currentPosts_index lastNarrowPageState 0 H). reflexivity.
Defined.

(** X4: A page within [[1, totalPages]] is never empty and never holds more
    than [postsPerPage] posts; every page before the last is full, and the
    last page holds what remains. *)
Theorem currentPosts_length s :
  1 <= currentPage s <= totalPages s ->
  1 <= Js.length (currentPosts s) <= postsPerPage s /\
  (currentPage s < totalPages s ->
   Js.length (currentPosts s) = postsPerPage s) /\
  (currentPage s = totalPages s ->
   Js.length (currentPosts s) =
   Js.length (posts s) - (totalPages s - 1) * postsPerPage s).
Proof.
  intros H. pose proof (startIndex_nonneg s ltac:(lia)) as H0.
  pose proof (postsPerPage_pos s) as P.
  pose proof (totalPages_bounds s) as B.
  rewrite currentPosts_slice, slice_length by lia.
  unfold startIndex, pageStart in *.
  set (T := totalPages s) in *. set (c := currentPage s) in *.
  set (pp := postsPerPage s) in *. set (n := Js.length (posts s)) in *.
  assert (c < T -> c * pp <= (T - 1) * pp) by nia.
  assert ((c - 1) * pp <= (T - 1) * pp) by nia.
  repeat split; intros; try subst c; lia.
Qed.

Lemma currentPosts_length_witness :
  1 <= currentPage lastNarrowPageState <= totalPages lastNarrowPageState /\
  Js.length (currentPosts lastNarrowPageState) = 1.
Proof.
  assert (H : 1 <= currentPage lastNarrowPageState
              <= totalPages lastNarrowPageState)
    by (vm_compute; split; discriminate).
  split; [exact H|].
  exact (proj2 (proj2 (currentPosts_length lastNarrowPageState H)) eq_refl).
Defined.

(** ** Navigation and resizing *)

Lemma handlePageChange_totalPages page s :
  totalPages (fst (handlePageChange page s)) = totalPages s.
Proof.
  destruct (handlePageChange_cases page s) as [[_ E] | [_ E]];
    rewrite E; reflexivity.
Qed.

(** X5: Page changes do not alter the page count, so of two successive
    requests the later one decides whenever it is within range, a rejected
    request leaves the result of the earlier one, and repeating a request
    changes nothing further. *)
Theorem handlePageChange_compose (m n : Z) (s : BrowserState) :
  totalPages (fst (handlePageChange m s)) = totalPages s /\
  (1 <= n <= totalPages s ->
   fst (handlePageChange n (fst (handlePageChange m s)))
   = fst (handlePageChange n s)) /\
  (n < 1 \/ totalPages s < n ->
   handlePageChange n (fst (handlePageChange m s))
   = (fst (handlePageChange m s), [])) /\
  fst (handlePageChange n (fst (handlePageChange n s)))
  = fst (handlePageChange n s).
Proof.
  split; [apply handlePageChange_totalPages|].
  pose proof (handlePageChange_totalPages m s) as Tm.
  pose proof (handlePageChange_totalPages n s) as Tn.
  destruct (handlePageChange_cases n (fst (handlePageChange m s)))
    as [[Hm Em] | [Hm Em]];
  destruct (handlePageChange_cases n (fst (handlePageChange n s)))
    as [[Hn En] | [Hn En]];
  destruct (handlePageChange_cases n s) as [[H E] | [H E]];
  destruct (handlePageChange_cases m s) as [[H' E'] | [H' E']];
  rewrite ?Em, ?En; rewrite ?E, ?E' in *; cbn [fst] in *;
  repeat split; intros; try lia; reflexivity.
Qed.

Lemma handlePageChange_compose_witness :
  1 <= 3 <= totalPages lastNarrowPageState /\
  fst (handlePageChange 3 (fst (handlePageChange 2 lastNarrowPageState)))
  = fst (handlePageChange 3 lastNarrowPageState) /\
  (9 < 1 \/ totalPages lastNarrowPageState < 9) /\
  handlePageChange 9 (fst (handlePageChange 2 lastNarrowPageState))
  = (fst (handlePageChange 2 lastNarrowPageState), []).
Proof.
  assert (Hin : 1 <= 3 <= totalPages lastNarrowPageState)
    by (vm_compute; split; discriminate).
  assert (Hout : 9 < 1 \/ totalPages lastNarrowPageState < 9)
    by (right; reflexivity).
  pose proof (handlePageChange_compose 2 3 lastNarrowPageState) as [_ [H3 _]].
  pose proof (handlePageChange_compose 2 9 lastNarrowPageState)
    as [_ [_ [H9 _]]].
  split; [exact Hin|]. split; [exact (H3 Hin)|].
  split; [exact Hout | exact (H9 Hout)].
Defined.

(** X6: A resize changes nothing but the layout flag ([posts], [loading],
    [error] and [currentPage] are kept), and the flag depends on the last
    width only.  The narrow layout has at least as many pages as the wide
    one and at most twice as many: the wide page count is the narrow one
    halved and rounded up. *)
Theorem checkMobile_page_count (narrow wide : Z) (s : BrowserState) :
  narrow <= 768 -> 768 < wide ->
  (forall innerWidth,
     posts (checkMobile innerWidth s) = posts s /\
     loading (checkMobile innerWidth s) = loading s /\
     error (checkMobile innerWidth s) = error s /\
     currentPage (checkMobile innerWidth s) = currentPage s /\
     isMobile (checkMobile innerWidth s) = (innerWidth <=? 768)) /\
  (forall first last,
     checkMobile last (checkMobile first s) = checkMobile last s) /\
  checkMobile wide (checkMobile narrow s) = checkMobile wide s /\
  checkMobile narrow (checkMobile wide s) = checkMobile narrow s /\
  2 * totalPages (checkMobile wide s) - 1
    <= totalPages (checkMobile narrow s)
    <= 2 * totalPages (checkMobile wide s).
Proof.
  intros Hn Hw.
  split; [intros w; repeat split|]. split; [reflexivity|].
  assert (Ew : forall t, checkMobile wide t = setIsMobile false t).
  { intros t. unfold checkMobile.
    destruct (Z.leb_spec wide 768); [lia | reflexivity]. }
  assert (En : forall t, checkMobile narrow t = setIsMobile true t).
  { intros t. unfold checkMobile.
    destruct (Z.leb_spec narrow 768); [reflexivity | lia]. }
  rewrite !Ew, !En. do 2 (split; [reflexivity|]).
  pose proof (totalPages_bounds (setIsMobile false s)) as Bw.
  pose proof (totalPages_bounds (setIsMobile true s)) as Bn.
  unfold postsPerPage in Bw, Bn. cbn [isMobile posts setIsMobile] in Bw, Bn.
  lia.
Qed.

Lemma checkMobile_page_count_witness :
  (375 <= 768 /\ 768 < 1024) /\
  2 * totalPages (checkMobile 1024 lastNarrowPageState) - 1
    <= totalPages (checkMobile 375 lastNarrowPageState)
    <= 2 * totalPages (checkMobile 1024 lastNarrowPageState).
Proof.
  assert (Hn : 375 <= 768) by (vm_compute; discriminate).
  assert (Hw : 768 < 1024) by reflexivity.
  split; [split; assumption|].
  exact (proj2 (proj2 (proj2 (proj2
    (checkMobile_page_count 375 1024 lastNarrowPageState Hn Hw))))).
Defined.

(** ** Phases of the component *)

Lemma reachable_in_flight_eq s :
  reachable s -> loading s = true ->
  s = setIsMobile (isMobile s) initialState.
Proof.
  intros Hr Hl. destruct (reachable_in_flight s Hr Hl) as [Hp [He Hc]].
  destruct s as [p l e c m]. cbn in *. subst. reflexivity.
Qed.

(** X7: In every reachable state: while loading there are no posts and no
    error; an error excludes both loading and posts (the failed fetch has
    stored nothing); and as long as no posts are stored the current page
    is still 1. *)
Theorem reachable_phases s :
  reachable s ->
  (loading s = true -> error s = None /\ posts s = []) /\
  (error s <> None -> loading s = false /\ posts s = []) /\
  (posts s = [] -> currentPage s = 1).
Proof.
  intros Hr. split.
  { intros Hl. destruct (reachable_in_flight s Hr Hl) as [Hp [He _]]. auto. }
  induction Hr as [| s w _ IH | s net Hr _ Hl | s page _ IH].
  - split; [intros H; contradiction H; reflexivity | reflexivity].
  - exact IH.
  - rewrite (reachable_in_flight_eq s Hr Hl).
    fetch_cases net; cbn; (split; [intros H | intros H]);
      try reflexivity; try (split; reflexivity);
      contradiction H; reflexivity.
  - destruct (handlePageChange_cases page s) as [[Hp E] | [_ E]];
      rewrite E; cbn [fst]; [|exact IH].
    split; [exact (proj1 IH)|].
    change (posts (setCurrentPage page s)) with (posts s). intros Hn.
    unfold totalPages in Hp.
    rewrite Hn, pageCount_nil in Hp by apply postsPerPage_pos. lia.
Qed.

Lemma reachable_phases_witness :
  let s := fetchSettled (inl Js.OtherValue) initialState in
  (reachable s /\ error s <> None) /\ loading s = false /\ posts s = [].
Proof.
  intros s.
  assert (Hr : reachable s)
    by (apply reach_fetch; [apply reach_mount | reflexivity]).
  assert (He : error s <> None) by discriminate.
  split; [split; assumption|].
  exact (proj1 (proj2 (reachable_phases s Hr)) He).
Defined.

(** X8: In every reachable state there are at most 25 pages, at most 13 in
    the wide layout, and the current page is at most 25. *)
Theorem reachable_page_limits s :
  reachable s ->
  0 <= totalPages s <= 25 /\
  (isMobile s = false -> totalPages s <= 13) /\
  1 <= currentPage s <= 25.
Proof.
  intros Hr. pose proof (reachable_posts_length s Hr) as L.
  pose proof (reachable_page_bound s Hr) as B.
  pose proof (totalPages_bounds s) as Bs.
  pose proof (totalPages_nonneg s) as N.
  pose proof (pageCount_bounds (posts s) 4 ltac:(lia)) as [_ B4].
  unfold postsPerPage in Bs.
  destruct (isMobile s); repeat split; try lia; discriminate.
Qed.

Lemma reachable_page_limits_witness :
  reachable stalePageState /\ totalPages stalePageState <= 13.
Proof.
  split; [exact stalePageState_reachable|].
  exact (proj1 (proj2 (reachable_page_limits stalePageState
                         stalePageState_reachable)) eq_refl).
Defined.

(** ** The fetch as a whole *)

(** X9: Whatever the network returns, [fetchPosts] completes without throwing,
    ends with [loading = false], never touches [currentPage] or
    [isMobile], and either stores posts (leaving [error] alone) or stores
    an error (leaving [posts] alone). *)
Theorem fetchPosts_settles (net : FetchResult) (s : BrowserState) :
  fst (fetchPosts net s) = inr tt /\
  loading (fetchSettled net s) = false /\
  currentPage (fetchSettled net s) = currentPage s /\
  isMobile (fetchSettled net s) = isMobile s /\
  ((exists data,
      net = okResponse data /\
      posts (fetchSettled net s) = Js.slice data 0 100 /\
      error (fetchSettled net s) = error s) \/
   (exists message,
      error (fetchSettled net s) = Some message /\
      posts (fetchSettled net s) = posts s)).
Proof.
  fetch_cases net; repeat split;
    try (right; eexists; split; reflexivity).
  left. exists data. repeat split.
Qed.

(** ** The card grid *)

Lemma mapFrom_length {A B} (f : A -> Z -> B) i arr :
  List.length (mapFrom f i arr) = List.length arr.
Proof.
  revert i. induction arr as [|x rest IH]; intros i; cbn; [reflexivity|].
  rewrite IH. reflexivity.
Qed.

Lemma mapFrom_In {A B} (f : A -> Z -> B) i arr y :
  In y (mapFrom f i arr) ->
  exists x k, nth_error arr k = Some x /\ y = f x (i + Z.of_nat k).
Proof.
  revert i. induction arr as [|x rest IH]; intros i; cbn; [intros []|].
  intros [<- | Hin].
  - exists x, 0%nat. split; [reflexivity | f_equal; lia].
  - destruct (IH _ Hin) as [x' [k [Hk ->]]].
    exists x', (S k). split; [exact Hk | f_equal; lia].
Qed.

Lemma slice_incl {A} (arr : list A) a b x :
  In x (Js.slice arr a b) -> In x arr.
Proof.
  unfold Js.slice. intros H.
  rewrite <- (firstn_skipn (Z.to_nat (Js.relative (Js.length arr) a)) arr).
  apply in_or_app. right.
  match type of H with
  | In _ (firstn ?n ?l) => rewrite <- (firstn_skipn n l)
  end.
  apply in_or_app. left. exact H.
Qed.

Lemma slice_length_le {A} (arr : list A) a b :
  a <= b -> Js.length (Js.slice arr a b) <= b - a.
Proof.
  intros Hab. unfold Js.slice, Js.relative, Js.length.
  rewrite length_firstn, length_skipn.
  destruct (Z.ltb_spec a 0); destruct (Z.ltb_spec b 0); lia.
Qed.

Lemma truncateText_chars text n :
  n < Js.strlen text ->
  list_ascii_of_string (truncateText text n) =
  firstn (Z.to_nat n) (list_ascii_of_string text)
    ++ list_ascii_of_string "...".
Proof.
  intros Hn. unfold truncateText.
  destruct (Z.gtb_spec (Js.strlen text) n); [|lia].
  rewrite chars_append, substring_prefix, chars_prefix by lia.
  reflexivity.
Qed.

Lemma truncateText_keeps text n :
  Js.strlen text <= n -> truncateText text n = text.
Proof.
  intros H. unfold truncateText.
  destruct (Z.gtb_spec (Js.strlen text) n); [lia | reflexivity].
Qed.

Lemma truncateText_strlen text n :
  n < Js.strlen text ->
  Js.strlen (truncateText text n) = Z.max 0 n + 3.
Proof.
  intros Hn. unfold Js.strlen at 1.
  rewrite <- chars_length, truncateText_chars, length_app, length_firstn,
    chars_length by assumption.
  unfold Js.strlen in Hn. cbn [list_ascii_of_string List.length]. lia.
Qed.

Lemma excerpt_strlen post : Js.strlen (excerpt post) <= 123.
Proof.
  unfold excerpt, defaultMaxLength.
  destruct (Z_lt_le_dec 120 (Js.strlen (body post))) as [H|H].
  - rewrite truncateText_strlen by assumption. lia.
  - rewrite truncateText_keeps by assumption. lia.
Qed.

Lemma getPostColorClass_defined index :
  0 <= index ->
  exists c, In c colors /\ getPostColorClass index = Some c.
Proof.
  intros H. unfold getPostColorClass, Js.rem. rewrite colors_length.
  rewrite Z.rem_mod_nonneg by lia.
  destruct (colors_lookup (index mod 6)) as [c [E Hin]];
    [apply Z.mod_pos_bound; lia|].
  exists c. split; assumption.
Qed.

Lemma render_PostsView s grid cards pg :
  render s = PostsView grid cards pg ->
  loading s = false /\ truthy (error s) = false /\
  cards = mapi renderCard (currentPosts s) /\
  pg = if totalPages s >? 1 then Some (renderPagination s) else None.
Proof.
  unfold render. destruct (loading s); [discriminate|].
  destruct (truthy (error s)); [discriminate|].
  intros [= _ <- <-]. repeat split.
Qed.

(** X10: Whenever the grid is shown it holds at most [postsPerPage] cards;
    each card shows one of the stored posts, with an excerpt of at most
    123 characters, and carries a colour class of the palette (never the
    text "undefined"). *)
Theorem render_cards s grid cards pg :
  render s = PostsView grid cards pg ->
  Js.length cards <= postsPerPage s /\
  (forall card, In card cards ->
     (exists post index,
        In post (posts s) /\ 0 <= index < Js.length cards /\
        card = renderCard post index) /\
     Js.strlen (description card) <= 123 /\
     (exists c, In c colors /\
        cardClass card = ("post-card " ++ c ++ " fade-in")%string)).
Proof.
  intros Hv. destruct (render_PostsView _ _ _ _ Hv) as [_ [_ [-> _]]].
  unfold mapi, Js.length. rewrite mapFrom_length.
  split.
  - pose proof (postsPerPage_pos s).
    pose proof (slice_length_le (posts s) (startIndex s)
                  (startIndex s + postsPerPage s) ltac:(lia)) as L.
    rewrite currentPosts_slice. unfold Js.length in L. lia.
  - intros card Hin. apply mapFrom_In in Hin.
    destruct Hin as [post [k [Hk ->]]].
    assert (Hlt : (k < List.length (currentPosts s))%nat)
      by (apply nth_error_Some; congruence).
    split; [|split].
    + exists post, (0 + Z.of_nat k). split; [|split; [lia | reflexivity]].
      apply nth_error_In in Hk. apply slice_incl in Hk. exact Hk.
    + apply excerpt_strlen.
    + destruct (getPostColorClass_defined (0 + Z.of_nat k)) as [c [Hc E]];
        [lia|].
      exists c. split; [exact Hc|]. cbn [cardClass renderCard].
      rewrite E. reflexivity.
Qed.

Lemma render_cards_witness :
  let s := mkState (samplePosts 13) false None 2 false in
  render s =
    PostsView "posts-grid desktop" (mapi renderCard (currentPosts s))
      (Some (renderPagination s)) /\
  Js.length (mapi renderCard (currentPosts s)) <= postsPerPage s.
Proof.
  intros s.
  assert (H : render s =
    PostsView "posts-grid desktop" (mapi renderCard (currentPosts s))
      (Some (renderPagination s))) by reflexivity.
  split; [exact H|].
  exact (proj1 (render_cards s _ _ _ H)).
Defined.

(** ** The pagination bar *)

Lemma numbers_In s b :
  In b (numbers (renderPagination s)) ->
  exists page, In page (getPageNumbers s) /\ b = renderPageButton s page.
Proof.
  cbn [numbers renderPagination]. intros H. apply in_map_iff in H.
  destruct H as [page [<- Hp]]. exists page. split; [exact Hp | reflexivity].
Qed.

(** X11: Whenever the bar is shown it has at least two number buttons, none of
    them disabled; a click on any of them is accepted by
    [handlePageChange], moves to the page the button is labelled with,
    scrolls to the top, and leaves the current page within range. *)
Theorem click_page_number s grid cards bar :
  render s = PostsView grid cards (Some bar) ->
  2 <= Js.length (numbers bar) /\
  (forall b, In b (numbers bar) ->
     disabled b = false /\
     label b = PageNumber (target b) /\
     click b s = (setCurrentPage (target b) s, [ScrollToTopSmooth]) /\
     1 <= currentPage (fst (click b s)) <= totalPages (fst (click b s))).
Proof.
  intros Hv. destruct (render_PostsView _ _ _ _ Hv) as [_ [_ [_ Hbar]]].
  destruct (Z.gtb_spec (totalPages s) 1) as [HT|HT]; [|discriminate].
  injection Hbar as ->. split.
  - cbn [numbers renderPagination]. unfold Js.length. rewrite length_map.
    destruct (getPageNumbers_first s) as [first [_ [E _]]].
    pose proof (interval_length first
      (first + Z.min (maxVisiblePages s) (totalPages s) - 1)) as L.
    rewrite <- E in L. unfold Js.length in L.
    destruct (maxVisiblePages_cases s) as [M | M]; rewrite M in L; lia.
  - intros b Hb. destruct (numbers_In s b Hb) as [page [Hp ->]].
    apply getPageNumbers_bounds in Hp.
    unfold click. cbn [disabled target label renderPageButton].
    destruct (handlePageChange_cases page s) as [[_ E] | [Hout _]]; [|lia].
    rewrite E. cbn [fst].
    change (totalPages (setCurrentPage page s)) with (totalPages s).
    cbn [currentPage setCurrentPage]. repeat split; lia.
Qed.

Lemma click_page_number_witness :
  render stalePageState =
    PostsView "posts-grid desktop"
      (mapi renderCard (currentPosts stalePageState))
      (Some (renderPagination stalePageState)) /\
  2 <= Js.length (numbers (renderPagination stalePageState)).
Proof.
  assert (H : render stalePageState =
    PostsView "posts-grid desktop"
      (mapi renderCard (currentPosts stalePageState))
      (Some (renderPagination stalePageState))) by reflexivity.
  split; [exact H|].
  exact (proj1 (click_page_number stalePageState _ _ _ H)).
Defined.



(** X13: With the current page within range, Previous and Next move one page
    and stop at the ends: a click on Previous leads to
    [max 1 (currentPage - 1)], a click on Next to
    [min totalPages (currentPage + 1)], and nothing else changes. *)
Theorem click_previous_next s :
  1 <= currentPage s <= totalPages s ->
  fst (click (previous (renderPagination s)) s)
    = setCurrentPage (Z.max 1 (currentPage s - 1)) s /\
  fst (click (next (renderPagination s)) s)
    = setCurrentPage (Z.min (totalPages s) (currentPage s + 1)) s.
Proof.
  intros H. unfold click. cbn [previous next renderPagination disabled target].
  assert (Same : setCurrentPage (currentPage s) s = s)
    by (destruct s; reflexivity).
  split.
  - destruct (Z.eqb_spec (currentPage s) 1) as [E|E]; cbn [fst].
    + replace (Z.max 1 (currentPage s - 1)) with (currentPage s) by lia.
      symmetry. exact Same.
    + destruct (handlePageChange_cases (currentPage s - 1) s)
        as [[_ Eh] | [Hout _]]; [|lia].
      rewrite Eh. cbn [fst]. f_equal. lia.
  - destruct (Z.eqb_spec (currentPage s) (totalPages s)) as [E|E]; cbn [fst].
    + replace (Z.min (totalPages s) (currentPage s + 1))
        with (currentPage s) by lia.
      symmetry. exact Same.
    + destruct (handlePageChange_cases (currentPage s + 1) s)
        as [[_ Eh] | [Hout _]]; [|lia].
      rewrite Eh. cbn [fst]. f_equal. lia.
Qed.

Lemma click_previous_next_witness :
  1 <= currentPage lastNarrowPageState <= totalPages lastNarrowPageState /\
  currentPage (fst (click (previous (renderPagination lastNarrowPageState))
                      lastNarrowPageState)) = 3 /\
  currentPage (fst (click (next (renderPagination lastNarrowPageState))
                      lastNarrowPageState)) = 4.
Proof.
  assert (H : 1 <= currentPage lastNarrowPageState
              <= totalPages lastNarrowPageState)
    by (vm_compute; split; discriminate).
  destruct (click_previous_next lastNarrowPageState H) as [Hp Hn].
  split; [exact H|]. rewrite Hp, Hn. split; reflexivity.
Defined.



(** ** What is shown once the fetch has settled *)

Lemma in_flight_cases s :
  reachable s -> loading s = true ->
  s = setIsMobile true initialState \/ s = setIsMobile false initialState.
Proof.
  intros Hr Hl. rewrite (reachable_in_flight_eq s Hr Hl).
  destruct (isMobile s); auto.
Qed.

(** X15: After a failed fetch the error view shows the fixed message, the
    thrown error's message or the fallback text; but a thrown error whose
    message is the empty string is falsy, and the component then shows an
    empty grid without pagination instead of the error view. *)
Theorem render_after_failure s :
  reachable s -> loading s = true ->
  (forall payload,
     render (fetchSettled (inr (mkResponse false payload)) s)
     = ErrorView "Failed to fetch posts") /\
  (forall thrown net,
     net = inl thrown \/ net = inr (mkResponse true (inl thrown)) ->
     render (fetchSettled net s) =
     match thrown with
     | Js.ErrorObject EmptyString =>
         PostsView
           ("posts-grid " ++ (if isMobile s then "mobile" else "desktop"))
           [] None
     | Js.ErrorObject message => ErrorView message
     | Js.OtherValue => ErrorView "An error occurred"
     end).
Proof.
  intros Hr Hl. split.
  - intros [thrown | data];
      destruct (in_flight_cases s Hr Hl) as [-> | ->]; reflexivity.
  - intros thrown net [-> | ->];
      destruct (in_flight_cases s Hr Hl) as [-> | ->];
      destruct thrown as [[|c message]|]; reflexivity.
Qed.

Lemma render_after_failure_witness :
  (reachable initialState /\ loading initialState = true) /\
  render (fetchSettled (inl (Js.ErrorObject "")) initialState)
  = PostsView "posts-grid desktop" [] None.
Proof.
  split; [split; [exact reach_mount | reflexivity]|].
  exact (proj2 (render_after_failure initialState reach_mount eq_refl)
           (Js.ErrorObject "") _ (or_introl eq_refl)).
Defined.

(** X16: After a successful fetch the grid shows the first [postsPerPage]
    records of the response, in order and numbered from 0 for the colours,
    and the pagination bar is present exactly when the response holds more
    records than one page. *)
Theorem render_after_success s data :
  reachable s -> loading s = true ->
  render (fetchSettled (okResponse data) s) =
  PostsView
    ("posts-grid " ++ (if isMobile s then "mobile" else "desktop"))
    (mapi renderCard (firstn (Z.to_nat (postsPerPage s)) data))
    (if Js.length data >? postsPerPage s
     then Some (renderPagination (fetchSettled (okResponse data) s))
     else None).
Proof.
  intros Hr Hl.
  set (s' := fetchSettled (okResponse data) s).
  assert (Hcards : currentPosts s' =
                   firstn (Z.to_nat (postsPerPage s)) data).
  { destruct (reachable_in_flight s Hr Hl) as [_ [_ Hc]].
    assert (H0 : startIndex s' = 0).
    { unfold startIndex, pageStart.
      change (currentPage s') with (currentPage s). rewrite Hc. lia. }
    assert (P : 0 < postsPerPage s <= 8)
      by (unfold postsPerPage; destruct (isMobile s); lia).
    rewrite currentPosts_slice, H0.
    change (posts s') with (Js.slice data 0 100).
    change (postsPerPage s') with (postsPerPage s).
    rewrite !slice_prefix, firstn_firstn by lia. f_equal. lia. }
  assert (Hbar : (totalPages s' >? 1) = (Js.length data >? postsPerPage s)).
  { pose proof (totalPages_bounds s') as B.
    pose proof (slice_100_length data) as L.
    change (posts s') with (Js.slice data 0 100) in B.
    change (postsPerPage s') with (postsPerPage s) in B.
    pose proof (postsPerPage_pos s) as P.
    assert (postsPerPage s <= 8) by (unfold postsPerPage; destruct (isMobile s); lia).
    pose proof (length_nonneg data).
    destruct (Z.gtb_spec (totalPages s') 1);
      destruct (Z.gtb_spec (Js.length data) (postsPerPage s));
      try reflexivity; nia. }
  rewrite <- Hcards, <- Hbar. subst s'.
  destruct (in_flight_cases s Hr Hl) as [-> | ->]; reflexivity.
Qed.

Lemma render_after_success_witness :
  (reachable initialState /\ loading initialState = true) /\
  render (fetchSettled (okResponse (samplePosts 3)) initialState) =
  PostsView "posts-grid desktop" (mapi renderCard (samplePosts 3)) None.
Proof.
  split; [split; [exact reach_mount | reflexivity]|].
  exact (render_after_success initialState (samplePosts 3)
           reach_mount eq_refl).
Defined.

(** ** More on excerpts *)

(** X17: The result of [truncateText] never exceeds the shorter of the text and
    the limit by more than the three characters of the marker, and it
    always begins with the first [min(text.length, limit)] characters of
    the text. *)
Theorem truncateText_bounds (text : string) (limit : Z) :
  Js.strlen (truncateText text limit)
    <= Z.min (Js.strlen text) (Z.max 0 limit) + 3 /\
  firstn (Z.to_nat (Z.min (Js.strlen text) limit))
         (list_ascii_of_string (truncateText text limit))
  = firstn (Z.to_nat (Z.min (Js.strlen text) limit))
           (list_ascii_of_string text).
Proof.
  pose proof (Nat2Z.is_nonneg (String.length text)) as Hlen.
  fold (Js.strlen text) in Hlen.
  destruct (Z_lt_le_dec limit (Js.strlen text)) as [H|H].
  - rewrite truncateText_strlen, truncateText_chars by assumption.
    split; [lia|].
    replace (Z.min (Js.strlen text) limit) with limit by lia.
    rewrite firstn_app, firstn_firstn, length_firstn, chars_length.
    unfold Js.strlen in H.
    replace (Z.to_nat limit
             - Nat.min (Z.to_nat limit) (String.length text))%nat
      with 0%nat by lia.
    rewrite Nat.min_id. cbn [firstn]. apply app_nil_r.
  - rewrite truncateText_keeps by assumption. split; [lia | reflexivity].
Qed.

(** X18: A text one or two characters longer than the limit comes back longer
    than it went in: the cut removes fewer characters than the marker
    adds. *)
Theorem truncateText_lengthens (text : string) (limit : Z) :
  0 <= limit -> limit < Js.strlen text < limit + 3 ->
  Js.strlen text < Js.strlen (truncateText text limit).
Proof.
  intros H0 H. rewrite truncateText_strlen by lia. lia.
Qed.

Lemma truncateText_lengthens_witness :
  (0 <= 3 /\ 3 < Js.strlen "abcd" < 3 + 3) /\
  truncateText "abcd" 3 = "abc..."%string /\
  Js.strlen "abcd" < Js.strlen (truncateText "abcd" 3).
Proof.
  assert (H0 : 0 <= 3) by (vm_compute; discriminate).
  assert (H : 3 < Js.strlen "abcd" < 3 + 3) by (split; reflexivity).
  split; [split; assumption|]. split; [reflexivity|].
  exact (truncateText_lengthens "abcd" 3 H0 H).
Defined.

(** ** More on colours *)

Lemma getPostColorClass_mod index :
  0 <= index ->
  getPostColorClass index = nth_error colors (Z.to_nat (index mod 6)).
Proof.
  intros H. unfold getPostColorClass, Js.rem, Js.index.
  rewrite colors_length, Z.rem_mod_nonneg by lia.
  pose proof (Z.mod_pos_bound index 6 ltac:(lia)).
  destruct (Z.ltb_spec (index mod 6) 0); [lia | reflexivity].
Qed.

Lemma colors_distinct (a b : Z) :
  0 <= a < 6 -> 0 <= b < 6 ->
  nth_error colors (Z.to_nat a) = nth_error colors (Z.to_nat b) -> a = b.
Proof.
  intros Ha Hb.
  assert (Ea : a = 0 \/ a = 1 \/ a = 2 \/ a = 3 \/ a = 4 \/ a = 5) by lia.
  assert (Eb : b = 0 \/ b = 1 \/ b = 2 \/ b = 3 \/ b = 4 \/ b = 5) by lia.
  repeat (destruct Ea as [-> | Ea]); try subst a;
    repeat (destruct Eb as [-> | Eb]); try subst b;
    cbn; intros E; try reflexivity; discriminate E.
Qed.

(** X19: Two card positions get the same colour exactly when they are
    congruent modulo 6; in particular neighbouring cards never share a
    colour. *)
Theorem getPostColorClass_same_iff (i j : Z) :
  0 <= i -> 0 <= j ->
  (getPostColorClass i = getPostColorClass j <-> i mod 6 = j mod 6) /\
  getPostColorClass i <> getPostColorClass (i + 1).
Proof.
  intros Hi Hj.
  assert (Iff : forall a b, 0 <= a -> 0 <= b ->
            (getPostColorClass a = getPostColorClass b <-> a mod 6 = b mod 6)).
  { intros a b Ha Hb. rewrite !getPostColorClass_mod by assumption. split.
    - apply colors_distinct; apply Z.mod_pos_bound; lia.
    - intros ->. reflexivity. }
  split; [apply Iff; assumption|].
  intros E. apply Iff in E; [|lia..].
  pose proof (Z.div_mod i 6 ltac:(lia)).
  pose proof (Z.div_mod (i + 1) 6 ltac:(lia)).
  pose proof (Z.mod_pos_bound i 6 ltac:(lia)). lia.
Qed.

Lemma getPostColorClass_same_iff_witness :
  (0 <= 1 /\ 0 <= 7) /\ getPostColorClass 1 = getPostColorClass 7.
Proof.
  assert (H1 : 0 <= 1) by (vm_compute; discriminate).
  assert (H7 : 0 <= 7) by (vm_compute; discriminate).
  split; [split; assumption|].
  exact (proj2 (proj1 (getPostColorClass_same_iff 1 7 H1 H7)) eq_refl).
Defined.

(** X20: For a negative index the remainder is negative or zero: the lookup
    yields [undefined] unless the index is a multiple of 6, where it yields
    the first colour. *)
Theorem getPostColorClass_negative (index : Z) :
  index < 0 ->
  getPostColorClass index =
  if Z.rem index 6 =? 0 then Some "post-orange"%string else None.
Proof.
  intros H. unfold getPostColorClass, Js.rem, Js.index.
  rewrite colors_length.
  pose proof (Z.rem_opp_l' index 6) as O.
  pose proof (Z.rem_bound_pos (- index) 6 ltac:(lia) ltac:(lia)) as B.
  destruct (Z.eqb_spec (Z.rem index 6) 0) as [E|E].
  - rewrite E. reflexivity.
  - destruct (Z.ltb_spec (Z.rem index 6) 0); [reflexivity | lia].
Qed.

Lemma getPostColorClass_negative_witness :
  -1 < 0 /\ getPostColorClass (-1) = None.
Proof.
  assert (H : -1 < 0) by reflexivity.
  split; [exact H|].
  exact (getPostColorClass_negative (-1) H).
Defined.
